(** * A shallow embedding of the task-list web application (src/app.py)

    The application is a Flask process with three view functions
    ([index], [add_task], [health]) over a MySQL table [tasks], reached
    through the pymysql driver.  The view functions are embedded as
    programs of a state-and-exception monad over a [world] that holds the
    module's global [db_config], the table, and the driver objects
    (connections and cursors) that are currently open. *)

From Stdlib Require Import ZArith Lia String Ascii List.
From stdpp Require Import base option list gmap strings relations.

Local Open Scope Z_scope.

(** ** Python exceptions *)

(** The classes of [pymysql.err] that the driver raises. *)
Inductive mysql_error : Type :=
  | OperationalError   (* server unreachable, access denied, connection lost *)
  | ProgrammingError   (* malformed SQL, closed cursor *)
  | IntegrityError     (* constraint violation *)
  | DataError          (* value out of range for its column *)
  | InternalError
  | InterfaceError     (* use of a closed connection *)
  | Error.             (* the base class; "Already closed" *)

(** Every exception of the model is a subclass of Python's [Exception]. *)
Inductive exn : Type :=
  | MySQLError (cls : mysql_error) (text : string)
  | BadRequestKeyError (key : string)   (* werkzeug: request.form[key], key missing *)
  | TemplateNotFound (name : string)    (* jinja2 *)
  | BuildError (endpoint : string)      (* werkzeug.routing: url_for of an unknown endpoint *)
  | ValueError (text : string).

(** [str(e)]. A driver error carries its rendering as [text]. *)
Definition str (e : exn) : string :=
  match e with
  | MySQLError _ text => text
  | BadRequestKeyError _ =>
      "400 Bad Request: The browser (or proxy) sent a request that this server could not understand."
  | TemplateNotFound name => name
  | BuildError endpoint => "Could not build url for endpoint " +:+ endpoint
  | ValueError text => text
  end.

(** The errors that the specification calls ConnectionError: the driver
    reports an unreachable server and rejected credentials alike as an
    [OperationalError]. *)
Definition is_connection_error (e : exn) : bool :=
  match e with
  | MySQLError OperationalError _ => true
  | _ => false
  end.

(** The request-validation error of a missing form key. *)
Definition is_missing_key_error (key : string) (e : exn) : bool :=
  match e with
  | BadRequestKeyError k => bool_decide (k = key)
  | _ => false
  end.

(** ** Strings *)

Fixpoint starts_with (p s : string) : bool :=
  match p, s with
  | EmptyString, _ => true
  | String a p', String b s' => if Ascii.eqb a b then starts_with p' s' else false
  | String _ _, EmptyString => false
  end.

(** Python's [needle in hay]. *)
Fixpoint contains (needle hay : string) : bool :=
  starts_with needle hay ||
  match hay with
  | EmptyString => false
  | String _ hay' => contains needle hay'
  end.

(** The same as a proposition: [hay] splits around [needle]. *)
Definition Substring (needle hay : string) : Prop :=
  exists pre post : string, hay = pre +:+ needle +:+ post.

(** ** Data *)

(** One row of [tasks]: the store-assigned identifier and the task name,
    in the column order of [SELECT *]. *)
Definition task_row : Type := Z * string.

(** The keyword arguments of [pymysql.connect]. *)
Record config : Type := Config {
  host : string;
  user : string;
  password : string;
  database : string;
  port : Z
}.

(** A connection object: the parameters it was opened with and the rows it
    has inserted but not committed. *)
Record connection : Type := Connection {
  conn_params : config;
  conn_pending : list task_row
}.

(** A cursor object: its connection and the unread part of its result set. *)
Record cursor_obj : Type := Cursor {
  cur_conn : nat;
  cur_rows : list task_row
}.

(** How the database answers during a request.  [None] is success; a
    [Some] makes the driver call raise.  Whether a connection is accepted
    depends on the parameters presented (address, credentials). *)
Record faults : Type := Faults {
  on_connect : config -> option string;
  on_execute : option exn;
  on_fetchall : option exn;
  on_commit : option exn
}.

Definition healthy : faults :=
  {| on_connect := fun _ => None; on_execute := None;
     on_fetchall := None; on_commit := None |}.

Record world : Type := World {
  db_config : config;                   (* the module's global dict *)
  tasks_table : list task_row;          (* committed rows, in scan order *)
  auto_increment : Z;                   (* next identifier of the table *)
  connections : gmap nat connection;    (* connections open right now *)
  cursors : gmap nat cursor_obj;        (* cursors open right now *)
  next_handle : nat;                    (* identity of the next driver object *)
  db_faults : faults
}.

Definition set_tasks (t : list task_row) (a : Z) (w : world) : world :=
  {| db_config := db_config w; tasks_table := t; auto_increment := a;
     connections := connections w; cursors := cursors w;
     next_handle := next_handle w; db_faults := db_faults w |}.

Definition set_connections (c : gmap nat connection) (w : world) : world :=
  {| db_config := db_config w; tasks_table := tasks_table w;
     auto_increment := auto_increment w;
     connections := c; cursors := cursors w;
     next_handle := next_handle w; db_faults := db_faults w |}.

Definition set_cursors (c : gmap nat cursor_obj) (w : world) : world :=
  {| db_config := db_config w; tasks_table := tasks_table w;
     auto_increment := auto_increment w;
     connections := connections w; cursors := c;
     next_handle := next_handle w; db_faults := db_faults w |}.

Definition set_next_handle (n : nat) (w : world) : world :=
  {| db_config := db_config w; tasks_table := tasks_table w;
     auto_increment := auto_increment w;
     connections := connections w; cursors := cursors w;
     next_handle := n; db_faults := db_faults w |}.

Definition set_faults (f : faults) (w : world) : world :=
  {| db_config := db_config w; tasks_table := tasks_table w;
     auto_increment := auto_increment w;
     connections := connections w; cursors := cursors w;
     next_handle := next_handle w; db_faults := f |}.

(** ** The monad of view functions: state and exceptions

    A raised exception keeps the state reached so far: objects opened
    before the raise stay open. *)

Inductive outcome (A : Type) : Type :=
  | Ok (a : A)
  | Raise (e : exn).
Arguments Ok {A} a.
Arguments Raise {A} e.

Definition M (A : Type) : Type := world -> outcome A * world.

Definition ret {A} (a : A) : M A := fun w => (Ok a, w).

Definition raise {A} (e : exn) : M A := fun w => (Raise e, w).

Definition bind {A B} (m : M A) (k : A -> M B) : M B :=
  fun w =>
    match m w with
    | (Ok a, w') => k a w'
    | (Raise e, w') => (Raise e, w')
    end.

(** [try: body / except Exception as e: handler e]. *)
Definition try_except {A} (body : M A) (handler : exn -> M A) : M A :=
  fun w =>
    match body w with
    | (Ok a, w') => (Ok a, w')
    | (Raise e, w') => handler e w'
    end.

Definition get_world : M world := fun w => (Ok w, w).

Notation "'do' x <- m ; k" := (bind m (fun x => k))
  (at level 10, x name, m at level 100, k at level 200,
   format "'[v' 'do'  x  <-  m ; '/' k ']'").

(** ** Module initialisation: [db_config] *)

(** [os.getenv(key, default)] over the process environment. *)
Definition os_getenv (environ : gmap string string) (key dflt : string) : string :=
  default dflt (environ !! key).

(** Python's [str.isspace] on the ASCII range: TAB..CR, FS..US and space. *)
Definition is_space (a : ascii) : bool :=
  let n := nat_of_ascii a in
  ((9 <=? n)%nat && (n <=? 13)%nat) || ((28 <=? n)%nat && (n <=? 32)%nat).

Fixpoint lstrip (s : string) : string :=
  match s with
  | String a s' => if is_space a then lstrip s' else s
  | EmptyString => EmptyString
  end.

Fixpoint rstrip (s : string) : string :=
  match s with
  | EmptyString => EmptyString
  | String a s' =>
      match rstrip s' with
      | EmptyString => if is_space a then EmptyString else String a EmptyString
      | r => String a r
      end
  end.

Definition digit_of (a : ascii) : option Z :=
  let n := nat_of_ascii a in
  if ((48 <=? n)%nat && (n <=? 57)%nat)%bool then Some (Z.of_nat n - 48) else None.

(** Decimal digits, single underscores allowed between two digits. *)
Fixpoint digits_value (s : string) (acc : Z) (after_digit : bool) : option Z :=
  match s with
  | EmptyString => if after_digit then Some acc else None
  | String a s' =>
      match digit_of a with
      | Some d => digits_value s' (10 * acc + d) true
      | None =>
          if (Ascii.eqb a "_" && after_digit)%bool
          then digits_value s' acc false
          else None
      end
  end.

(** [int(s)] for a str [s], base 10: surrounding whitespace, an optional
    sign, then the digits.  ASCII text only; the interpreter's cap on the
    number of digits is left out. *)
Definition py_int (s : string) : outcome Z :=
  let t := rstrip (lstrip s) in
  let v :=
    match t with
    | String "+" r => digits_value r 0 false
    | String "-" r => Z.opp <$> digits_value r 0 false
    | _ => digits_value t 0 false
    end in
  match v with
  | Some n => Ok n
  | None => Raise (ValueError ("invalid literal for int() with base 10: " +:+ s))
  end.

(** The module-level dict [db_config], built once when the module is
    imported.  [os.getenv('DB_PORT', 3306)] is the str of the environment
    when the variable is set and the int 3306 otherwise; [int] of an int
    is that int. *)
Definition load_db_config (environ : gmap string string) : outcome config :=
  match
    match environ !! "DB_PORT" with
    | Some s => py_int s
    | None => Ok 3306
    end
  with
  | Ok p =>
      Ok {| host := os_getenv environ "DB_HOST" "mysql-service";
            user := os_getenv environ "DB_USER" "root";
            password := os_getenv environ "DB_PASSWORD" "password";
            database := os_getenv environ "DB_NAME" "taskdb";
            port := p |}
  | Raise e => Raise e
  end.

(** ** The driver: pymysql over the MySQL server *)

(** [pymysql.connect] with the entries of [cfg] as keyword arguments: a
    new connection object, or
    [OperationalError] when the server at [cfg] cannot be reached or
    refuses the credentials.  Nothing is pooled: every call makes a new
    object, and object identities are never handed out twice. *)
Definition pymysql_connect (cfg : config) : M nat :=
  fun w =>
    match on_connect (db_faults w) cfg with
    | Some text => (Raise (MySQLError OperationalError text), w)
    | None =>
        let h := next_handle w in
        (Ok h,
         set_next_handle (S h)
           (set_connections
              (<[h := {| conn_params := cfg; conn_pending := [] |}]> (connections w)) w))
    end.

(** [conn.cursor()]: constructs a cursor object; no traffic. *)
Definition conn_cursor (conn : nat) : M nat :=
  fun w =>
    let k := next_handle w in
    (Ok k,
     set_next_handle (S k)
       (set_cursors (<[k := {| cur_conn := conn; cur_rows := [] |}]> (cursors w)) w)).

Definition SELECT_ALL : string := "SELECT * FROM tasks".
Definition INSERT_ONE : string := "INSERT INTO tasks (task_name) VALUES (%s)".

(** [cursor.execute(sql, args)], returning the number of affected rows.
    The two statements of the application are interpreted; a SELECT sees
    the committed rows and the connection's own uncommitted ones, in the
    scan order of the table; an INSERT takes the next identifier and is
    pending until the connection commits. *)
Definition cursor_execute (cursor : nat) (sql : string) (args : list string) : M Z :=
  fun w =>
    match cursors w !! cursor with
    | None => (Raise (MySQLError ProgrammingError "Cursor closed"), w)
    | Some cur =>
        match connections w !! cur_conn cur with
        | None => (Raise (MySQLError InterfaceError "(0, '')"), w)
        | Some c =>
            match on_execute (db_faults w) with
            | Some e => (Raise e, w)
            | None =>
                if bool_decide (sql = SELECT_ALL /\ args = []) then
                  let result := tasks_table w ++ conn_pending c in
                  (Ok (Z.of_nat (length result)),
                   set_cursors
                     (<[cursor := {| cur_conn := cur_conn cur; cur_rows := result |}]>
                        (cursors w)) w)
                else
                  match args with
                  | [task] =>
                      if bool_decide (sql = INSERT_ONE) then
                        let row := (auto_increment w, task) in
                        (Ok 1,
                         set_tasks (tasks_table w) (auto_increment w + 1)
                           (set_connections
                              (<[cur_conn cur :=
                                   {| conn_params := conn_params c;
                                      conn_pending := conn_pending c ++ [row] |}]>
                                 (connections w))
                              (set_cursors
                                 (<[cursor := {| cur_conn := cur_conn cur; cur_rows := [] |}]>
                                    (cursors w)) w)))
                      else (Raise (MySQLError ProgrammingError "(1064, syntax error)"), w)
                  | _ => (Raise (MySQLError ProgrammingError "(1064, syntax error)"), w)
                  end
            end
        end
    end.

(** [cursor.fetchall()]: the unread rows of the result set. *)
Definition cursor_fetchall (cursor : nat) : M (list task_row) :=
  fun w =>
    match cursors w !! cursor with
    | None => (Raise (MySQLError ProgrammingError "Cursor closed"), w)
    | Some cur =>
        match on_fetchall (db_faults w) with
        | Some e => (Raise e, w)
        | None =>
            (Ok (cur_rows cur),
             set_cursors
               (<[cursor := {| cur_conn := cur_conn cur; cur_rows := [] |}]> (cursors w)) w)
        end
    end.

(** [cursor.close()]: drops the cursor; closing twice is harmless. *)
Definition cursor_close (cursor : nat) : M unit :=
  fun w => (Ok tt, set_cursors (delete cursor (cursors w)) w).

(** [conn.commit()]: the pending rows join the table, at its end. *)
Definition conn_commit (conn : nat) : M unit :=
  fun w =>
    match connections w !! conn with
    | None => (Raise (MySQLError InterfaceError "(0, '')"), w)
    | Some c =>
        match on_commit (db_faults w) with
        | Some e => (Raise e, w)
        | None =>
            (Ok tt,
             set_tasks (tasks_table w ++ conn_pending c) (auto_increment w)
               (set_connections
                  (<[conn := {| conn_params := conn_params c; conn_pending := [] |}]>
                     (connections w)) w))
        end
    end.

(** [conn.close()]: releases the connection; what it had not committed
    is rolled back.  Errors of the goodbye packet are swallowed by the
    driver; only closing twice raises. *)
Definition conn_close (conn : nat) : M unit :=
  fun w =>
    match connections w !! conn with
    | None => (Raise (MySQLError Error "Already closed"), w)
    | Some _ => (Ok tt, set_connections (delete conn (connections w)) w)
    end.

(** ** Flask *)

(** What a view function returns. *)
Inductive view_result : Type :=
  | Text (body : string)                               (* a str: sent with status 200 *)
  | WithStatus (body : gmap string string) (status : Z)  (* a (dict, int) tuple: sent as JSON *)
  | Redirect (location : string) (code : Z).           (* the response built by [redirect] *)

(** The status code Flask sends for a view's return value. *)
Definition status_of (r : view_result) : Z :=
  match r with
  | Text _ => 200
  | WithStatus _ status => status
  | Redirect _ code => code
  end.

(** [request.form[key]]: the first value submitted under [key], or
    [BadRequestKeyError]. The form is a multi-dict: order and duplicates
    are kept. *)
Fixpoint form_lookup (key : string) (form : list (string * string)) : option string :=
  match form with
  | [] => None
  | (k, v) :: form' => if bool_decide (k = key) then Some v else form_lookup key form'
  end.

Definition form_getitem (form : list (string * string)) (key : string) : M string :=
  match form_lookup key form with
  | Some v => ret v
  | None => raise (BadRequestKeyError key)
  end.

(** The rules registered by the [@app.route] decorators, by endpoint. *)
Definition url_map : list (string * string) :=
  [("index", "/"); ("add_task", "/add"); ("health", "/health")].

Definition url_for (endpoint : string) : M string :=
  match form_lookup endpoint url_map with
  | Some rule => ret rule
  | None => raise (BuildError endpoint)
  end.

(** [redirect(location)], with werkzeug's default code. *)
Definition redirect (location : string) : view_result := Redirect location 302.

(** Modelled from the spec: templates/index.html is not among the sources.
    The specification describes it as a server-rendered HTML page that
    iterates over the task sequence and lists the tasks; each row is
    rendered as one list item showing the task name as it is stored. *)
Definition index_html (tasks : list task_row) : string :=
  "<h1>Tasks</h1><ul>" +:+
  String.concat "" (map (fun t : task_row => "<li>" +:+ t.2 +:+ "</li>") tasks) +:+
  "</ul>".

Definition render_template (name : string) (tasks : list task_row) : M string :=
  if bool_decide (name = "index.html") then ret (index_html tasks)
  else raise (TemplateNotFound name).

(** ** The application *)

Definition get_db_connection : M nat :=
  do w <- get_world;
  pymysql_connect (db_config w).

Definition index : M view_result :=
  try_except
    (do conn <- get_db_connection;
     do cursor <- conn_cursor conn;
     do _ <- cursor_execute cursor "SELECT * FROM tasks" [];
     do tasks <- cursor_fetchall cursor;
     do _ <- cursor_close cursor;
     do _ <- conn_close conn;
     do page <- render_template "index.html" tasks;
     ret (Text page))
    (fun e => ret (Text ("Database Error: " +:+ str e))).

Definition add_task (form : list (string * string)) : M view_result :=
  do task <- form_getitem form "task";
  do conn <- get_db_connection;
  do cursor <- conn_cursor conn;
  do _ <- cursor_execute cursor "INSERT INTO tasks (task_name) VALUES (%s)" [task];
  do _ <- conn_commit conn;
  do _ <- cursor_close cursor;
  do _ <- conn_close conn;
  do location <- url_for "index";
  ret (redirect location).

Definition health : M view_result :=
  ret (WithStatus {[ "status" := "healthy" ]} 200).

(** The requests the three routes answer. *)
Inductive request : Type :=
  | GET_index                                  (* GET / *)
  | POST_add (form : list (string * string))   (* POST /add *)
  | GET_health.                                (* GET /health *)

Definition handle (r : request) : M view_result :=
  match r with
  | GET_index => index
  | POST_add form => add_task form
  | GET_health => health
  end.

(** One request served while the database behaves as [f]; the world it
    leaves behind, whether the view returned or raised. *)
Definition serve (f : faults) (r : request) (w : world) : world :=
  (handle r (set_faults f w)).2.

(** Any number of requests, one after the other. *)
Fixpoint serve_all (rs : list (faults * request)) (w : world) : world :=
  match rs with
  | [] => w
  | (f, r) :: rs' => serve_all rs' (serve f r w)
  end.

(** [POST /add] once for each name, in order, on a database without faults. *)
Definition add_all (names : list string) (w : world) : world :=
  serve_all (map (fun s => (healthy, POST_add [("task", s)])) names) w.

(** The name stored under an identifier: the first row that carries it. *)
Fixpoint task_name_of (id : Z) (rows : list task_row) : option string :=
  match rows with
  | [] => None
  | (i, name) :: rows' => if bool_decide (i = id) then Some name else task_name_of id rows'
  end.

(** ** Sample worlds *)

Definition sample_config : config :=
  {| host := "mysql-service"; user := "root"; password := "password";
     database := "taskdb"; port := 3306 |}.

Definition empty_world : world :=
  {| db_config := sample_config; tasks_table := []; auto_increment := 1;
     connections := ∅; cursors := ∅; next_handle := 0; db_faults := healthy |}.

Definition unreachable : faults :=
  {| on_connect := fun _ => Some "(2003, Can't connect to MySQL server on 'mysql-service')";
     on_execute := None; on_fetchall := None; on_commit := None |}.

Definition query_fails : faults :=
  {| on_connect := fun _ => None;
     on_execute := Some (MySQLError ProgrammingError "(1146, Table 'taskdb.tasks' doesn't exist)");
     on_fetchall := None; on_commit := None |}.

Definition fetch_fails : faults :=
  {| on_connect := fun _ => None; on_execute := None;
     on_fetchall := Some (MySQLError OperationalError "(2013, Lost connection to MySQL server during query)");
     on_commit := None |}.

Definition commit_fails : faults :=
  {| on_connect := fun _ => None; on_execute := None; on_fetchall := None;
     on_commit := Some (MySQLError OperationalError "(2013, Lost connection to MySQL server during query)") |}.

(** The world of a view function that has opened its connection and its
    cursor and has not yet run its statement. *)
Definition opened (w : world) : world :=
  {| db_config := db_config w;
     tasks_table := tasks_table w;
     auto_increment := auto_increment w;
     connections :=
       <[next_handle w := {| conn_params := db_config w; conn_pending := [] |}]>
         (connections w);
     cursors :=
       <[S (next_handle w) := {| cur_conn := next_handle w; cur_rows := [] |}]>
         (cursors w);
     next_handle := S (S (next_handle w));
     db_faults := db_faults w |}.

(** The world of a view function that has returned after releasing both. *)
Definition released (w : world) : world :=
  {| db_config := db_config w;
     tasks_table := tasks_table w;
     auto_increment := auto_increment w;
     connections := delete (next_handle w) (connections w);
     cursors := delete (S (next_handle w)) (cursors w);
     next_handle := S (S (next_handle w));
     db_faults := db_faults w |}.

(** The first driver call of the read path that fails, with what it
    raises: connection, then query execution, then fetching. *)
Definition read_path_failure (w : world) : option exn :=
  match on_connect (db_faults w) (db_config w) with
  | Some text => Some (MySQLError OperationalError text)
  | None =>
      match on_execute (db_faults w) with
      | Some e => Some e
      | None => on_fetchall (db_faults w)
      end
  end.

(** The same for the write path: connection, then insert, then commit. *)
Definition write_path_failure (w : world) : option exn :=
  match on_connect (db_faults w) (db_config w) with
  | Some text => Some (MySQLError OperationalError text)
  | None =>
      match on_execute (db_faults w) with
      | Some e => Some e
      | None => on_commit (db_faults w)
      end
  end.

(** ** Runs of requests and what can be observed of them *)

(** Requests served one after the other, with what each view returned or
    raised. *)
Fixpoint serve_log (rs : list (faults * request)) (w : world)
    : list (outcome view_result) * world :=
  match rs with
  | [] => ([], w)
  | (f, r) :: rs' =>
      let (o, w1) := handle r (set_faults f w) in
      let (os, w2) := serve_log rs' w1 in
      (o :: os, w2)
  end.

(** What Flask sends for a view that returned or raised, outside debug
    mode ([app.run] is called without it): a werkzeug HTTP exception is
    its own response, [BadRequestKeyError] being a 400; any other
    exception becomes a 500. *)
Definition http_status (o : outcome view_result) : Z :=
  match o with
  | Ok r => status_of r
  | Raise (BadRequestKeyError _) => 400
  | Raise _ => 500
  end.

(** The names of the POST /add requests of a run that were answered with
    a redirect, in order. *)
Fixpoint acknowledged (rs : list (faults * request)) (os : list (outcome view_result))
    : list string :=
  match rs, os with
  | (_, POST_add form) :: rs', Ok (Redirect _ _) :: os' =>
      match form_lookup "task" form with
      | Some s => s :: acknowledged rs' os'
      | None => acknowledged rs' os'
      end
  | _ :: rs', _ :: os' => acknowledged rs' os'
  | _, _ => []
  end.

(** Every open driver object was created before now. *)
Definition handles_below (w : world) : Prop :=
  (forall h, is_Some (connections w !! h) -> (h < next_handle w)%nat) /\
  (forall k, is_Some (cursors w !! k) -> (k < next_handle w)%nat).

(** A request whose view obtains its connection and then meets a failing
    driver call: the query or the fetch for GET /, the insert or the
    commit for a POST /add that carries a task field. *)
Definition fails_after_connect (cfg : config) (f : faults) (r : request) : bool :=
  match on_connect f cfg with
  | Some _ => false
  | None =>
      match r with
      | GET_index =>
          match on_execute f, on_fetchall f with
          | None, None => false
          | _, _ => true
          end
      | POST_add form =>
          match form_lookup "task" form with
          | None => false
          | Some _ =>
              match on_execute f, on_commit f with
              | None, None => false
              | _, _ => true
              end
          end
      | GET_health => false
      end
  end.

Fixpoint leak_count (cfg : config) (rs : list (faults * request)) : nat :=
  match rs with
  | [] => 0
  | (f, r) :: rs' =>
      ((if fails_after_connect cfg f r then 1 else 0) + leak_count cfg rs')%nat
  end.

(** Two worlds with the same configuration, database behaviour and table,
    whatever driver objects are open in them. *)
Definition same_store (w1 w2 : world) : Prop :=
  db_config w1 = db_config w2 /\
  db_faults w1 = db_faults w2 /\
  tasks_table w1 = tasks_table w2 /\
  auto_increment w1 = auto_increment w2.

(** The identifiers of the table are distinct and all below the counter. *)
Definition ids_fresh (w : world) : Prop :=
  NoDup (map fst (tasks_table w)) /\
  Forall (fun row : task_row => row.1 < auto_increment w) (tasks_table w).

(** The statements of the write path fail with errors of the driver. *)
Definition driver_errors_only (f : faults) : Prop :=
  (forall e, on_execute f = Some e -> exists cls text, e = MySQLError cls text) /\
  (forall e, on_commit f = Some e -> exists cls text, e = MySQLError cls text).

(** ** Running the monad *)

Example py_int_plain : py_int "3306" = Ok 3306.
Proof. reflexivity. Qed.

Example py_int_decorated : py_int " +33_07 " = Ok 3307.
Proof. reflexivity. Qed.

Example py_int_rejects :
  py_int "33__07" = Raise (ValueError "invalid literal for int() with base 10: 33__07").
Proof. reflexivity. Qed.

Example defaults_without_environment : load_db_config ∅ = Ok sample_config.
Proof. reflexivity. Qed.

(** The scenario of the specification: an empty table, one POST /add of
    buy milk, then GET / shows a page with that one row. *)
Example buy_milk :
  index (serve healthy (POST_add [("task", "buy milk")]) empty_world)
    = (Ok (Text "<h1>Tasks</h1><ul><li>buy milk</li></ul>"),
       released (serve healthy (POST_add [("task", "buy milk")]) empty_world)).
Proof. reflexivity. Qed.

Example fetch_failure_page :
  (index (set_faults fetch_fails empty_world)).1
    = Ok (Text "Database Error: (2013, Lost connection to MySQL server during query)").
Proof. reflexivity. Qed.

(** ** Substrings *)

Lemma Substring_here (pre needle post : string) :
  Substring needle (pre +:+ needle +:+ post).
Proof. by exists pre, post. Qed.

Lemma append_cons (x : ascii) (a b : string) :
  String x a +:+ b = String x (a +:+ b).
Proof. reflexivity. Qed.

Lemma append_nil_l (a : string) : "" +:+ a = a.
Proof. reflexivity. Qed.

Lemma append_assoc (a b c : string) : (a +:+ b) +:+ c = a +:+ (b +:+ c).
Proof. induction a as [|x a IH]; [done|]. by rewrite !append_cons, IH. Qed.

Lemma Substring_app_l (needle a b : string) :
  Substring needle a -> Substring needle (a +:+ b).
Proof.
  intros (pre & post & ->). exists pre, (post +:+ b).
  by rewrite !append_assoc.
Qed.

Lemma Substring_app_r (needle a b : string) :
  Substring needle b -> Substring needle (a +:+ b).
Proof.
  intros (pre & post & ->). exists (a +:+ pre), post.
  by rewrite !append_assoc.
Qed.

Lemma starts_with_spec (p s : string) :
  starts_with p s = true <-> exists post, s = p +:+ post.
Proof.
  revert s. induction p as [|a p IH]; intros s; cbn [starts_with].
  - split; [intros _; by exists s | done].
  - destruct s as [|b s].
    + split; [done | intros [post Hp]; by rewrite append_cons in Hp].
    + destruct (Ascii.eqb_spec a b) as [->|Hne].
      * rewrite IH. split; intros [post Hp]; exists post; rewrite append_cons in *;
          [by rewrite Hp | by inversion Hp].
      * split; [done | intros [post Hp]; rewrite append_cons in Hp; inversion Hp; congruence].
Qed.

Lemma contains_spec (needle hay : string) :
  contains needle hay = true <-> Substring needle hay.
Proof.
  induction hay as [|b hay IH].
  - cbn [contains]. rewrite orb_false_r, starts_with_spec. split.
    + intros [post ->]. by exists "", post.
    + intros (pre & post & Hp). destruct pre; [by exists post | by rewrite append_cons in Hp].
  - cbn [contains]. rewrite orb_true_iff, starts_with_spec, IH. split.
    + intros [[post ->] | (pre & post & ->)].
      * by exists "", post.
      * by exists (String b pre), post.
    + intros (pre & post & Hp). destruct pre as [|c pre].
      * left. by exists post.
      * right. rewrite append_cons in Hp. inversion Hp. by exists pre, post.
Qed.

(** ** The driver calls, one equation per way a call can go *)

Lemma execute_select_eq :
  bool_decide ("SELECT * FROM tasks" = SELECT_ALL /\ @nil string = []) = true.
Proof. by apply bool_decide_eq_true_2. Qed.

Lemma execute_insert_eq (task : string) :
  bool_decide ("INSERT INTO tasks (task_name) VALUES (%s)" = SELECT_ALL /\ [task] = []) = false.
Proof. apply bool_decide_eq_false_2. by intros [_ ?]. Qed.

Lemma execute_insert_one :
  bool_decide ("INSERT INTO tasks (task_name) VALUES (%s)" = INSERT_ONE) = true.
Proof. by apply bool_decide_eq_true_2. Qed.

Lemma render_index_name : bool_decide ("index.html" = "index.html") = true.
Proof. by apply bool_decide_eq_true_2. Qed.

Lemma url_for_index w : url_for "index" w = (Ok "/", w).
Proof. reflexivity. Qed.

Ltac run_view :=
  repeat first
    [ progress cbn [fst snd
                    db_config tasks_table auto_increment connections cursors
                    next_handle db_faults set_tasks set_connections set_cursors
                    set_next_handle set_faults cur_conn cur_rows conn_params
                    conn_pending]
    | rewrite lookup_insert_eq
    | rewrite execute_select_eq
    | rewrite execute_insert_eq
    | rewrite execute_insert_one
    | rewrite render_index_name
    | rewrite url_for_index
    | rewrite insert_insert_eq
    | rewrite delete_insert_eq
    | rewrite app_nil_l
    | match goal with H : _ = _ |- _ => rewrite H end ].

Lemma add_task_ok w form s :
  form_lookup "task" form = Some s ->
  on_connect (db_faults w) (db_config w) = None ->
  on_execute (db_faults w) = None ->
  on_commit (db_faults w) = None ->
  add_task form w =
    (Ok (Redirect "/" 302),
     {| db_config := db_config w;
        tasks_table := tasks_table w ++ [(auto_increment w, s)];
        auto_increment := auto_increment w + 1;
        connections := delete (next_handle w) (connections w);
        cursors := delete (S (next_handle w)) (cursors w);
        next_handle := S (S (next_handle w));
        db_faults := db_faults w |}).
Proof.
  intros Hf Hc He Hm.
  unfold add_task, form_getitem, get_db_connection, pymysql_connect, conn_cursor,
    cursor_execute, conn_commit, cursor_close, conn_close, redirect,
    bind, ret, raise, get_world.
  run_view. reflexivity.
Qed.

Ltac unfold_views :=
  unfold index, add_task, form_getitem, get_db_connection, pymysql_connect,
    conn_cursor, cursor_execute, cursor_fetchall, conn_commit, cursor_close,
    conn_close, render_template, redirect, try_except, bind, ret, raise, get_world.

Lemma add_task_missing_key w form :
  form_lookup "task" form = None ->
  add_task form w = (Raise (BadRequestKeyError "task"), w).
Proof. intros Hf. unfold_views. run_view. reflexivity. Qed.

Lemma add_task_connect_fails w form s text :
  form_lookup "task" form = Some s ->
  on_connect (db_faults w) (db_config w) = Some text ->
  add_task form w = (Raise (MySQLError OperationalError text), w).
Proof. intros Hf Hc. unfold_views. run_view. reflexivity. Qed.

Lemma add_task_execute_fails w form s e :
  form_lookup "task" form = Some s ->
  on_connect (db_faults w) (db_config w) = None ->
  on_execute (db_faults w) = Some e ->
  add_task form w = (Raise e, opened w).
Proof. intros Hf Hc He. unfold_views. run_view. reflexivity. Qed.

Lemma add_task_commit_fails w form s e :
  form_lookup "task" form = Some s ->
  on_connect (db_faults w) (db_config w) = None ->
  on_execute (db_faults w) = None ->
  on_commit (db_faults w) = Some e ->
  add_task form w =
    (Raise e,
     set_tasks (tasks_table w) (auto_increment w + 1)
       (set_connections
          (<[next_handle w :=
               {| conn_params := db_config w;
                  conn_pending := [(auto_increment w, s)] |}]> (connections w))
          (opened w))).
Proof. intros Hf Hc He Hm. unfold_views. run_view. reflexivity. Qed.

Lemma index_connect_fails w text :
  on_connect (db_faults w) (db_config w) = Some text ->
  index w = (Ok (Text ("Database Error: " +:+ text)), w).
Proof. intros Hc. unfold_views. run_view. reflexivity. Qed.

Lemma index_execute_fails w e :
  on_connect (db_faults w) (db_config w) = None ->
  on_execute (db_faults w) = Some e ->
  index w = (Ok (Text ("Database Error: " +:+ str e)), opened w).
Proof. intros Hc He. unfold_views. run_view. reflexivity. Qed.

Lemma index_fetchall_fails w e :
  on_connect (db_faults w) (db_config w) = None ->
  on_execute (db_faults w) = None ->
  on_fetchall (db_faults w) = Some e ->
  index w =
    (Ok (Text ("Database Error: " +:+ str e)),
     set_cursors
       (<[S (next_handle w) :=
            {| cur_conn := next_handle w; cur_rows := tasks_table w |}]> (cursors w))
       (opened w)).
Proof.
  intros Hc He Hf. unfold_views. run_view. rewrite app_nil_r. reflexivity.
Qed.

Lemma index_ok w :
  on_connect (db_faults w) (db_config w) = None ->
  on_execute (db_faults w) = None ->
  on_fetchall (db_faults w) = None ->
  index w = (Ok (Text (index_html (tasks_table w))), released w).
Proof.
  intros Hc He Hf. unfold_views. run_view. rewrite app_nil_r. reflexivity.
Qed.

(** ** The page *)

Lemma concat_items_name (tasks : list task_row) (id : Z) (name : string) :
  (id, name) ∈ tasks ->
  Substring name
    (String.concat "" (map (fun t : task_row => "<li>" +:+ t.2 +:+ "</li>") tasks)).
Proof.
  induction tasks as [|t tasks IH]; intros Hin.
  - by apply elem_of_nil in Hin.
  - apply elem_of_cons in Hin as [<- | Hin].
    + destruct tasks as [|t' tasks]; cbn [map String.concat snd].
      * apply Substring_here.
      * rewrite append_nil_l. apply Substring_app_l, Substring_here.
    + specialize (IH Hin). destruct tasks as [|t' tasks].
      * by apply elem_of_nil in Hin.
      * cbn [map String.concat] in *. rewrite append_nil_l.
        by apply Substring_app_r.
Qed.

Lemma index_html_name (tasks : list task_row) (id : Z) (name : string) :
  (id, name) ∈ tasks -> Substring name (index_html tasks).
Proof.
  intros Hin. unfold index_html.
  apply Substring_app_r, Substring_app_l. by eapply concat_items_name.
Qed.

(** ** What a request does to the table and to the handle counter *)

Lemma serve_add_table f form w :
  exists suffix : list task_row,
    tasks_table (serve f (POST_add form) w) = tasks_table w ++ suffix /\
    (length suffix <= 1)%nat.
Proof.
  unfold serve. cbn [handle]. set (w0 := set_faults f w).
  destruct (form_lookup "task" form) as [s|] eqn:Hf.
  - destruct (on_connect (db_faults w0) (db_config w0)) as [text|] eqn:Hc.
    { rewrite (add_task_connect_fails _ _ _ _ Hf Hc). exists []. rewrite app_nil_r. split; [reflexivity | cbn; lia]. }
    destruct (on_execute (db_faults w0)) as [e|] eqn:He.
    { rewrite (add_task_execute_fails _ _ _ _ Hf Hc He). exists []. rewrite app_nil_r. split; [reflexivity | cbn; lia]. }
    destruct (on_commit (db_faults w0)) as [e|] eqn:Hm.
    { rewrite (add_task_commit_fails _ _ _ _ Hf Hc He Hm). exists []. rewrite app_nil_r. split; [reflexivity | cbn; lia]. }
    rewrite (add_task_ok _ _ _ Hf Hc He Hm). exists [(auto_increment w, s)].
    split; [reflexivity | cbn; lia].
  - rewrite (add_task_missing_key _ _ Hf). exists []. rewrite app_nil_r.
    split; [reflexivity | cbn; lia].
Qed.

Lemma serve_index_table f w :
  tasks_table (serve f GET_index w) = tasks_table w.
Proof.
  unfold serve. cbn [handle]. set (w0 := set_faults f w).
  destruct (on_connect (db_faults w0) (db_config w0)) as [text|] eqn:Hc.
  { by rewrite (index_connect_fails _ _ Hc). }
  destruct (on_execute (db_faults w0)) as [e|] eqn:He.
  { by rewrite (index_execute_fails _ _ Hc He). }
  destruct (on_fetchall (db_faults w0)) as [e|] eqn:Hf.
  { by rewrite (index_fetchall_fails _ _ Hc He Hf). }
  by rewrite (index_ok _ Hc He Hf).
Qed.

Lemma serve_table_prefix f r w :
  tasks_table w `prefix_of` tasks_table (serve f r w).
Proof.
  destruct r as [|form|].
  - by rewrite serve_index_table.
  - destruct (serve_add_table f form w) as (suffix & -> & _). by exists suffix.
  - reflexivity.
Qed.

Lemma serve_all_table_prefix rs w :
  tasks_table w `prefix_of` tasks_table (serve_all rs w).
Proof.
  revert w. induction rs as [|[f r] rs IH]; intros w; cbn [serve_all].
  - reflexivity.
  - etrans; [apply (serve_table_prefix f r) | apply IH].
Qed.

Lemma task_name_of_app id name rows suffix :
  task_name_of id rows = Some name ->
  task_name_of id (rows ++ suffix) = Some name.
Proof.
  induction rows as [|[i n] rows IH]; cbn [task_name_of app]; [done|].
  case_bool_decide; [done | apply IH].
Qed.

Lemma serve_next_handle f r w :
  (next_handle w <= next_handle (serve f r w))%nat.
Proof.
  unfold serve. set (w0 := set_faults f w).
  change (next_handle w) with (next_handle w0).
  destruct r as [|form|]; cbn [handle].
  - destruct (on_connect (db_faults w0) (db_config w0)) as [text|] eqn:Hc.
    { by rewrite (index_connect_fails _ _ Hc). }
    destruct (on_execute (db_faults w0)) as [e|] eqn:He.
    { rewrite (index_execute_fails _ _ Hc He). cbn. lia. }
    destruct (on_fetchall (db_faults w0)) as [e|] eqn:Hf.
    { rewrite (index_fetchall_fails _ _ Hc He Hf). cbn. lia. }
    rewrite (index_ok _ Hc He Hf). cbn. lia.
  - destruct (form_lookup "task" form) as [s|] eqn:Hf.
    + destruct (on_connect (db_faults w0) (db_config w0)) as [text|] eqn:Hc.
      { by rewrite (add_task_connect_fails _ _ _ _ Hf Hc). }
      destruct (on_execute (db_faults w0)) as [e|] eqn:He.
      { rewrite (add_task_execute_fails _ _ _ _ Hf Hc He). cbn. lia. }
      destruct (on_commit (db_faults w0)) as [e|] eqn:Hm.
      { rewrite (add_task_commit_fails _ _ _ _ Hf Hc He Hm). cbn. lia. }
      rewrite (add_task_ok _ _ _ Hf Hc He Hm). cbn. lia.
    + by rewrite (add_task_missing_key _ _ Hf).
  - reflexivity.
Qed.

Lemma serve_all_next_handle rs w :
  (next_handle w <= next_handle (serve_all rs w))%nat.
Proof.
  revert w. induction rs as [|[f r] rs IH]; intros w; cbn [serve_all]; [lia|].
  etrans; [apply (serve_next_handle f r) | apply IH].
Qed.

Lemma serve_add_healthy form s w :
  form_lookup "task" form = Some s ->
  serve healthy (POST_add form) w =
    {| db_config := db_config w;
       tasks_table := tasks_table w ++ [(auto_increment w, s)];
       auto_increment := auto_increment w + 1;
       connections := delete (next_handle w) (connections w);
       cursors := delete (S (next_handle w)) (cursors w);
       next_handle := S (S (next_handle w));
       db_faults := healthy |}.
Proof.
  intros Hf. unfold serve. cbn [handle].
  by rewrite (add_task_ok (set_faults healthy w) form s Hf).
Qed.

Lemma add_all_table names w :
  exists rows : list task_row,
    tasks_table (add_all names w) = tasks_table w ++ rows /\ map snd rows = names.
Proof.
  revert w. induction names as [|s names IH]; intros w.
  - exists []. by rewrite app_nil_r.
  - unfold add_all. cbn [map serve_all].
    rewrite (serve_add_healthy [("task", s)] s w) by reflexivity.
    match goal with |- context [serve_all _ ?w1] => destruct (IH w1) as (rows & Hrows & Hnames) end.
    unfold add_all in Hrows. rewrite Hrows. cbn [tasks_table].
    exists ((auto_increment w, s) :: rows). split.
    + by rewrite <- app_assoc.
    + cbn [map snd]. by rewrite Hnames.
Qed.

Lemma index_healthy w :
  index (set_faults healthy w) =
    (Ok (Text (index_html (tasks_table w))), released (set_faults healthy w)).
Proof. by rewrite index_ok. Qed.

Lemma get_db_connection_Ok w h w' :
  get_db_connection w = (Ok h, w') ->
  h = next_handle w /\ next_handle w' = S h.
Proof.
  unfold get_db_connection, pymysql_connect, bind, get_world.
  destruct (on_connect (db_faults w) (db_config w)); [done|].
  by intros [= <- <-].
Qed.

(** The handler of [index] turns every exception into a page. *)
Lemma index_never_raises w : exists body w', index w = (Ok (Text body), w').
Proof.
  destruct (on_connect (db_faults w) (db_config w)) as [text|] eqn:Hc.
  { rewrite (index_connect_fails _ _ Hc). by eexists _, _. }
  destruct (on_execute (db_faults w)) as [e|] eqn:He.
  { rewrite (index_execute_fails _ _ Hc He). by eexists _, _. }
  destruct (on_fetchall (db_faults w)) as [e|] eqn:Hf.
  { rewrite (index_fetchall_fails _ _ Hc He Hf). by eexists _, _. }
  rewrite (index_ok _ Hc He Hf). by eexists _, _.
Qed.

(** * Properties of the specification *)

(** C1. Write then read: after POST /add with form field task = s on a
    reachable store, the page of GET / includes s; and after posting N
    names one after the other, from any table, the list read by GET / is
    longer by N (its new rows carry the names, in order). *)
Theorem add_then_index_round_trip
    (w : world) (form : list (string * string)) (s : string) (names : list string) :
  form_lookup "task" form = Some s ->
  (exists page w',
      index (serve healthy (POST_add form) w) = (Ok (Text page), w') /\
      Substring s page) /\
  (exists tasks w',
      index (set_faults healthy (add_all names w)) = (Ok (Text (index_html tasks)), w') /\
      length tasks = (length (tasks_table w) + length names)%nat /\
      map snd (drop (length (tasks_table w)) tasks) = names).
Proof.
  intros Hf. split.
  - rewrite (serve_add_healthy form s w Hf).
    eexists _, _. split.
    + apply index_ok; reflexivity.
    + cbn [tasks_table]. apply (index_html_name _ (auto_increment w)).
      apply elem_of_app. right. apply list_elem_of_singleton. reflexivity.
  - destruct (add_all_table names w) as (rows & Hrows & Hnames).
    exists (tasks_table w ++ rows), (released (set_faults healthy (add_all names w))).
    split; [|split].
    + rewrite index_healthy. by rewrite Hrows.
    + rewrite length_app. by rewrite <- Hnames, length_map.
    + by rewrite drop_app_length.
Qed.

Lemma add_then_index_round_trip_witness :
  form_lookup "task" [("task", "buy milk")] = Some "buy milk" /\
  (exists page w',
      index (serve healthy (POST_add [("task", "buy milk")]) empty_world)
        = (Ok (Text page), w') /\
      Substring "buy milk" page) /\
  (exists tasks w',
      index (set_faults healthy (add_all ["buy milk"; "walk the dog"] empty_world))
        = (Ok (Text (index_html tasks)), w') /\
      length tasks = (length (tasks_table empty_world) + 2)%nat /\
      map snd (drop (length (tasks_table empty_world)) tasks)
        = ["buy milk"; "walk the dog"]).
Proof.
  split; [reflexivity|].
  apply (add_then_index_round_trip empty_world [("task", "buy milk")] "buy milk"
           ["buy milk"; "walk the dog"]).
  reflexivity.
Defined.

(** C2. GET /health returns status 200 with the body status = healthy in
    every world, whatever the database does: the view neither reads nor
    changes the world. *)
Theorem health_unconditional (w : world) (f : faults) :
  health (set_faults f w)
    = (Ok (WithStatus {[ "status" := "healthy" ]} 200), set_faults f w) /\
  status_of (WithStatus {[ "status" := "healthy" ]} 200) = 200 /\
  (forall w' : world, (health w').1 = (health w).1).
Proof. repeat split. Qed.

(** C3. When a driver call of the read path fails (connection, query
    execution or fetching), GET / does not raise: it returns the plain
    text Database Error: followed by the rendering of the exception, sent
    with the default status. *)
Theorem index_reports_database_error (w : world) (e : exn) :
  read_path_failure w = Some e ->
  exists w',
    index w = (Ok (Text ("Database Error: " +:+ str e)), w') /\
    Substring "Database Error" ("Database Error: " +:+ str e) /\
    status_of (Text ("Database Error: " +:+ str e)) = 200.
Proof.
  unfold read_path_failure. intros Hfail.
  assert (Substring "Database Error" ("Database Error: " +:+ str e)) as Hsub
    by (by exists "", (": " +:+ str e)).
  destruct (on_connect (db_faults w) (db_config w)) as [text|] eqn:Hc.
  { injection Hfail as <-. rewrite (index_connect_fails _ _ Hc). by eexists. }
  destruct (on_execute (db_faults w)) as [e0|] eqn:He.
  { injection Hfail as <-. rewrite (index_execute_fails _ _ Hc He). by eexists. }
  rewrite (index_fetchall_fails _ _ Hc He Hfail). by eexists.
Qed.

Lemma index_reports_database_error_witness :
  read_path_failure (set_faults unreachable empty_world)
    = Some (MySQLError OperationalError
              "(2003, Can't connect to MySQL server on 'mysql-service')") /\
  exists w',
    index (set_faults unreachable empty_world)
      = (Ok (Text ("Database Error: " +:+
                   str (MySQLError OperationalError
                          "(2003, Can't connect to MySQL server on 'mysql-service')"))),
         w') /\
    Substring "Database Error"
      ("Database Error: " +:+
       str (MySQLError OperationalError
              "(2003, Can't connect to MySQL server on 'mysql-service')")) /\
    status_of
      (Text ("Database Error: " +:+
             str (MySQLError OperationalError
                    "(2003, Can't connect to MySQL server on 'mysql-service')"))) = 200.
Proof.
  split; [reflexivity|].
  apply (index_reports_database_error (set_faults unreachable empty_world)).
  reflexivity.
Defined.

(** C4. POST /add handles nothing: a failure of the connection, of the
    insert or of the commit leaves the view as that exception; and when
    the connection had been opened, it is still open in the world the
    view leaves behind. *)
Theorem add_task_propagates_and_leaks
    (w : world) (form : list (string * string)) (s : string) (e : exn) :
  form_lookup "task" form = Some s ->
  write_path_failure w = Some e ->
  exists w',
    add_task form w = (Raise e, w') /\
    tasks_table w' = tasks_table w /\
    (on_connect (db_faults w) (db_config w) = None ->
     (get_db_connection w).1 = Ok (next_handle w) /\
     is_Some (connections w' !! next_handle w)).
Proof.
  unfold write_path_failure. intros Hf Hfail.
  destruct (on_connect (db_faults w) (db_config w)) as [text|] eqn:Hc.
  { injection Hfail as <-. rewrite (add_task_connect_fails _ _ _ _ Hf Hc).
    eexists. by repeat split. }
  assert ((get_db_connection w).1 = Ok (next_handle w)) as Hh.
  { unfold get_db_connection, pymysql_connect, bind, get_world. by rewrite Hc. }
  destruct (on_execute (db_faults w)) as [e0|] eqn:He.
  { injection Hfail as <-. rewrite (add_task_execute_fails _ _ _ _ Hf Hc He).
    eexists. repeat split; [done|]. cbn. rewrite lookup_insert_eq. by eexists. }
  rewrite (add_task_commit_fails _ _ _ _ Hf Hc He Hfail).
  eexists. repeat split; [done|]. cbn. rewrite lookup_insert_eq. by eexists.
Qed.

Lemma add_task_propagates_and_leaks_witness :
  form_lookup "task" [("task", "buy milk")] = Some "buy milk" /\
  write_path_failure (set_faults commit_fails empty_world)
    = Some (MySQLError OperationalError
              "(2013, Lost connection to MySQL server during query)") /\
  exists w',
    add_task [("task", "buy milk")] (set_faults commit_fails empty_world)
      = (Raise (MySQLError OperationalError
                  "(2013, Lost connection to MySQL server during query)"), w') /\
    tasks_table w' = tasks_table (set_faults commit_fails empty_world) /\
    (on_connect (db_faults (set_faults commit_fails empty_world))
       (db_config (set_faults commit_fails empty_world)) = None ->
     (get_db_connection (set_faults commit_fails empty_world)).1
       = Ok (next_handle (set_faults commit_fails empty_world)) /\
     is_Some (connections w' !! next_handle (set_faults commit_fails empty_world))).
Proof.
  split; [reflexivity|]. split; [reflexivity|].
  apply (add_task_propagates_and_leaks (set_faults commit_fails empty_world)
           [("task", "buy milk")] "buy milk"); reflexivity.
Defined.

(** C5. POST /add without the task field raises the missing-key error of
    the form lookup before anything else happens: no connection is
    opened and no row is inserted. *)
Theorem add_task_missing_field (w : world) (form : list (string * string)) :
  form_lookup "task" form = None ->
  exists e,
    add_task form w = (Raise e, w) /\
    e = BadRequestKeyError "task" /\
    is_missing_key_error "task" e = true.
Proof.
  intros Hf. exists (BadRequestKeyError "task").
  by rewrite (add_task_missing_key _ _ Hf).
Qed.

Lemma add_task_missing_field_witness :
  form_lookup "task" [("title", "buy milk")] = None /\
  exists e,
    add_task [("title", "buy milk")] empty_world = (Raise e, empty_world) /\
    e = BadRequestKeyError "task" /\
    is_missing_key_error "task" e = true.
Proof.
  split; [reflexivity|].
  apply (add_task_missing_field empty_world [("title", "buy milk")]).
  reflexivity.
Defined.

(** C6. The listing of GET /: on a connection just opened, executing the
    SELECT and fetching returns every row of the table as (identifier,
    name) pairs in the scan order of the table; the statement has no
    ordering clause; the page is rendered from that sequence, which is
    empty when the table is. *)
Theorem list_returns_all_rows (w : world) :
  read_path_failure w = None ->
  (exists w',
      (do conn <- get_db_connection;
       do cursor <- conn_cursor conn;
       do _ <- cursor_execute cursor "SELECT * FROM tasks" [];
       cursor_fetchall cursor) w = (Ok (tasks_table w), w')) /\
  index w = (Ok (Text (index_html (tasks_table w))), released w) /\
  contains "ORDER BY" "SELECT * FROM tasks" = false /\
  (tasks_table w = [] -> index w = (Ok (Text (index_html [])), released w)).
Proof.
  unfold read_path_failure. intros Hok.
  destruct (on_connect (db_faults w) (db_config w)) as [text|] eqn:Hc; [done|].
  destruct (on_execute (db_faults w)) as [e0|] eqn:He; [done|].
  split; [|split; [|split]].
  - eexists. unfold_views. run_view. rewrite app_nil_r. reflexivity.
  - by apply index_ok.
  - reflexivity.
  - intros <-. by apply index_ok.
Qed.

Lemma list_returns_all_rows_witness :
  read_path_failure (set_tasks [(1, "buy milk"); (2, "walk the dog")] 3 empty_world) = None /\
  index (set_tasks [(1, "buy milk"); (2, "walk the dog")] 3 empty_world)
    = (Ok (Text (index_html [(1, "buy milk"); (2, "walk the dog")])),
       released (set_tasks [(1, "buy milk"); (2, "walk the dog")] 3 empty_world)).
Proof.
  split; [reflexivity|].
  apply (list_returns_all_rows
           (set_tasks [(1, "buy milk"); (2, "walk the dog")] 3 empty_world)).
  reflexivity.
Defined.

(** C7. POST /add with a task field, when connection, insert and commit
    succeed: the view returns the 302 redirect to /, the table has gained
    exactly one row, at its end, carrying the submitted name unchanged
    under the next identifier, and the connection has been released. *)
Theorem add_task_appends_and_redirects
    (w : world) (form : list (string * string)) (s : string) :
  form_lookup "task" form = Some s ->
  write_path_failure w = None ->
  exists w',
    add_task form w = (Ok (Redirect "/" 302), w') /\
    url_for "index" w' = (Ok "/", w') /\
    status_of (Redirect "/" 302) = 302 /\
    tasks_table w' = tasks_table w ++ [(auto_increment w, s)] /\
    connections w' !! next_handle w = None.
Proof.
  unfold write_path_failure. intros Hf Hok.
  destruct (on_connect (db_faults w) (db_config w)) as [text|] eqn:Hc; [done|].
  destruct (on_execute (db_faults w)) as [e0|] eqn:He; [done|].
  rewrite (add_task_ok _ _ _ Hf Hc He Hok).
  eexists. repeat split. cbn. apply lookup_delete_eq.
Qed.

Lemma add_task_appends_and_redirects_witness :
  form_lookup "task" [("task", "")] = Some "" /\
  write_path_failure empty_world = None /\
  exists w',
    add_task [("task", "")] empty_world = (Ok (Redirect "/" 302), w') /\
    url_for "index" w' = (Ok "/", w') /\
    status_of (Redirect "/" 302) = 302 /\
    tasks_table w' = tasks_table empty_world ++ [(auto_increment empty_world, "")] /\
    connections w' !! next_handle empty_world = None.
Proof.
  split; [reflexivity|]. split; [reflexivity|].
  apply (add_task_appends_and_redirects empty_world [("task", "")] ""); reflexivity.
Defined.

(** C8. The connection factory.  The configuration has five parameters,
    each taken from its environment variable when set and from its fixed
    default otherwise; every call opens a new connection with exactly
    these parameters, or raises the driver's connection error when the
    server at these parameters is unreachable or refuses the credentials,
    opening nothing; a handle returned once is never returned again by a
    later call, whatever requests are served in between. *)
Theorem connection_factory
    (environ : gmap string string) (cfg : config) (w : world) :
  load_db_config environ = Ok cfg ->
  db_config w = cfg ->
  (host cfg = default "mysql-service" (environ !! "DB_HOST") /\
   user cfg = default "root" (environ !! "DB_USER") /\
   password cfg = default "password" (environ !! "DB_PASSWORD") /\
   database cfg = default "taskdb" (environ !! "DB_NAME") /\
   match environ !! "DB_PORT" with
   | Some p => py_int p = Ok (port cfg)
   | None => port cfg = 3306
   end) /\
  match on_connect (db_faults w) cfg with
  | Some text =>
      exists e, get_db_connection w = (Raise e, w) /\ is_connection_error e = true
  | None =>
      exists w',
        get_db_connection w = (Ok (next_handle w), w') /\
        connections w' !! next_handle w
          = Some {| conn_params := cfg; conn_pending := [] |}
  end /\
  (forall h1 w1 rs h2 w2,
      get_db_connection w = (Ok h1, w1) ->
      get_db_connection (serve_all rs w1) = (Ok h2, w2) ->
      (h1 < h2)%nat).
Proof.
  intros Hload Hcfg. split; [|split].
  - unfold load_db_config, os_getenv in Hload.
    destruct (environ !! "DB_PORT") as [p|].
    + destruct (py_int p) as [n|e] eqn:Hp; [|done].
      injection Hload as <-. by repeat split.
    + injection Hload as <-. by repeat split.
  - unfold get_db_connection, pymysql_connect, bind, get_world. rewrite Hcfg.
    destruct (on_connect (db_faults w) cfg) as [text|].
    + by eexists.
    + eexists. split; [reflexivity|]. cbn. apply lookup_insert_eq.
  - intros h1 w1 rs h2 w2 H1 H2.
    apply get_db_connection_Ok in H1 as [-> Hn1].
    apply get_db_connection_Ok in H2 as [-> _].
    pose proof (serve_all_next_handle rs w1). lia.
Qed.

Lemma connection_factory_witness :
  load_db_config {[ "DB_HOST" := "db.internal"; "DB_PORT" := "3307" ]}
    = Ok {| host := "db.internal"; user := "root"; password := "password";
            database := "taskdb"; port := 3307 |} /\
  exists w',
    get_db_connection
      {| db_config := {| host := "db.internal"; user := "root"; password := "password";
                         database := "taskdb"; port := 3307 |};
         tasks_table := []; auto_increment := 1; connections := ∅; cursors := ∅;
         next_handle := 0; db_faults := healthy |} = (Ok 0%nat, w') /\
    connections w' !! 0%nat
      = Some {| conn_params := {| host := "db.internal"; user := "root";
                                  password := "password"; database := "taskdb";
                                  port := 3307 |};
                conn_pending := [] |}.
Proof.
  split; [by vm_compute|].
  apply (connection_factory
           {[ "DB_HOST" := "db.internal"; "DB_PORT" := "3307" ]}
           {| host := "db.internal"; user := "root"; password := "password";
              database := "taskdb"; port := 3307 |}
           {| db_config := {| host := "db.internal"; user := "root";
                              password := "password"; database := "taskdb";
                              port := 3307 |};
              tasks_table := []; auto_increment := 1; connections := ∅; cursors := ∅;
              next_handle := 0; db_faults := healthy |});
    [by vm_compute | reflexivity].
Defined.

(** C9. Nothing the application does updates or deletes a row.  GET /
    leaves the table as it is, POST /add leaves it as it is or adds one
    row at its end, and so after any requests, under any behaviour of
    the database, the old table is a prefix of the new one and every
    identifier keeps the name it had. *)
Theorem rows_never_updated_or_deleted
    (w : world) (rs : list (faults * request)) (id : Z) (name : string) :
  task_name_of id (tasks_table w) = Some name ->
  task_name_of id (tasks_table (serve_all rs w)) = Some name /\
  tasks_table w `prefix_of` tasks_table (serve_all rs w) /\
  (forall f, tasks_table (serve f GET_index w) = tasks_table w) /\
  (forall f form, exists suffix : list task_row,
      tasks_table (serve f (POST_add form) w) = tasks_table w ++ suffix /\
      (length suffix <= 1)%nat).
Proof.
  intros Hname. split; [|split; [|split]].
  - destruct (serve_all_table_prefix rs w) as [suffix ->].
    by apply task_name_of_app.
  - apply serve_all_table_prefix.
  - intros f. apply serve_index_table.
  - intros f form. apply serve_add_table.
Qed.

Lemma rows_never_updated_or_deleted_witness :
  task_name_of 1 (tasks_table (set_tasks [(1, "buy milk")] 2 empty_world))
    = Some "buy milk" /\
  task_name_of 1
    (tasks_table
       (serve_all
          [(healthy, POST_add [("task", "walk the dog")]);
           (commit_fails, POST_add [("task", "buy milk")]);
           (query_fails, GET_index);
           (healthy, POST_add [("task", "buy milk")])]
          (set_tasks [(1, "buy milk")] 2 empty_world)))
    = Some "buy milk".
Proof.
  split; [reflexivity|].
  apply (rows_never_updated_or_deleted
           (set_tasks [(1, "buy milk")] 2 empty_world)
           [(healthy, POST_add [("task", "walk the dog")]);
            (commit_fails, POST_add [("task", "buy milk")]);
            (query_fails, GET_index);
            (healthy, POST_add [("task", "buy milk")])]
           1 "buy milk").
  reflexivity.
Defined.

(** C10. GET / closes its connection only on the success path.  When the
    connection was opened and the query or the fetch then fails, the
    view returns the error text and the connection is still open; when
    nothing fails, the connection is gone from the world. *)
Theorem index_leaks_on_error (w : world) :
  on_connect (db_faults w) (db_config w) = None ->
  (get_db_connection w).1 = Ok (next_handle w) /\
  (forall e,
      read_path_failure w = Some e ->
      exists w',
        index w = (Ok (Text ("Database Error: " +:+ str e)), w') /\
        connections w' !! next_handle w
          = Some {| conn_params := db_config w; conn_pending := [] |}) /\
  (read_path_failure w = None ->
   exists page w',
     index w = (Ok (Text page), w') /\ connections w' !! next_handle w = None).
Proof.
  intros Hc. unfold read_path_failure. rewrite Hc. split; [|split].
  - unfold get_db_connection, pymysql_connect, bind, get_world. by rewrite Hc.
  - intros e Hfail.
    destruct (on_execute (db_faults w)) as [e0|] eqn:He.
    + injection Hfail as <-. rewrite (index_execute_fails _ _ Hc He).
      eexists. split; [reflexivity|]. cbn. apply lookup_insert_eq.
    + rewrite (index_fetchall_fails _ _ Hc He Hfail).
      eexists. split; [reflexivity|]. cbn. apply lookup_insert_eq.
  - intros Hok.
    destruct (on_execute (db_faults w)) as [e0|] eqn:He; [done|].
    rewrite (index_ok _ Hc He Hok).
    eexists _, _. split; [reflexivity|]. cbn. apply lookup_delete_eq.
Qed.

Lemma index_leaks_on_error_witness :
  on_connect (db_faults (set_faults query_fails empty_world))
    (db_config (set_faults query_fails empty_world)) = None /\
  exists w',
    index (set_faults query_fails empty_world)
      = (Ok (Text ("Database Error: " +:+
                   str (MySQLError ProgrammingError
                          "(1146, Table 'taskdb.tasks' doesn't exist)"))), w') /\
    connections w' !! next_handle (set_faults query_fails empty_world)
      = Some {| conn_params := db_config (set_faults query_fails empty_world);
                conn_pending := [] |}.
Proof.
  split; [reflexivity|].
  destruct (index_leaks_on_error (set_faults query_fails empty_world) eq_refl)
    as (_ & Hleak & _).
  apply Hleak. reflexivity.
Defined.

(** * Further properties of the views *)

(** The ways a view can go, by the first driver call that fails. *)
Ltac index_paths w0 :=
  let Hc := fresh "Hc" in let He := fresh "He" in let Hf := fresh "Hf" in
  destruct (on_connect (db_faults w0) (db_config w0)) as [?text|] eqn:Hc;
  [ rewrite !(index_connect_fails _ _ Hc)
  | destruct (on_execute (db_faults w0)) as [?e|] eqn:He;
    [ rewrite !(index_execute_fails _ _ Hc He)
    | destruct (on_fetchall (db_faults w0)) as [?e|] eqn:Hf;
      [ rewrite !(index_fetchall_fails _ _ Hc He Hf)
      | rewrite !(index_ok _ Hc He Hf) ] ] ].

Ltac add_task_paths w0 form :=
  let Hk := fresh "Hk" in
  let Hc := fresh "Hc" in let He := fresh "He" in let Hm := fresh "Hm" in
  destruct (form_lookup "task" form) as [?s|] eqn:Hk;
  [ destruct (on_connect (db_faults w0) (db_config w0)) as [?text|] eqn:Hc;
    [ rewrite !(add_task_connect_fails _ _ _ _ Hk Hc)
    | destruct (on_execute (db_faults w0)) as [?e|] eqn:He;
      [ rewrite !(add_task_execute_fails _ _ _ _ Hk Hc He)
      | destruct (on_commit (db_faults w0)) as [?e|] eqn:Hm;
        [ rewrite !(add_task_commit_fails _ _ _ _ Hk Hc He Hm)
        | rewrite !(add_task_ok _ _ _ Hk Hc He Hm) ] ] ]
  | rewrite !(add_task_missing_key w0 _ Hk) ].

Lemma serve_log_world rs w : (serve_log rs w).2 = serve_all rs w.
Proof.
  revert w. induction rs as [|[f r] rs IH]; intros w; cbn [serve_log serve_all]; [done|].
  unfold serve. destruct (handle r (set_faults f w)) as [o w1].
  specialize (IH w1). destruct (serve_log rs w1) as [os w2]. exact IH.
Qed.

Lemma serve_db_config f r w : db_config (serve f r w) = db_config w.
Proof.
  unfold serve. set (w0 := set_faults f w).
  change (db_config w) with (db_config w0).
  destruct r as [|form|]; cbn [handle].
  - index_paths w0; reflexivity.
  - add_task_paths w0 form; reflexivity.
  - reflexivity.
Qed.

Lemma handle_same_store r w1 w2 :
  same_store w1 w2 ->
  (handle r w1).1 = (handle r w2).1 /\ same_store (handle r w1).2 (handle r w2).2.
Proof.
  intros (Sc & Sf & St & Sa). destruct r as [|form|]; cbn [handle].
  - index_paths w1; rewrite ?Sf, ?Sc in *; index_paths w2; simplify_eq;
      (split; [cbn; congruence | by repeat split]).
  - add_task_paths w1 form; rewrite ?Sf, ?Sc in *; add_task_paths w2 form; simplify_eq;
      (split; [cbn; congruence | repeat split; cbn; congruence]).
  - by repeat split.
Qed.

Ltac world_fields :=
  unfold opened, released, set_tasks, set_connections, set_cursors,
    set_next_handle, set_faults in *;
  cbn [db_config tasks_table auto_increment connections cursors next_handle
       db_faults fst snd] in *.

Lemma serve_handles_below f r w :
  handles_below w -> handles_below (serve f r w).
Proof.
  intros [Hconn Hcur]. unfold serve. set (w0 := set_faults f w).
  assert (forall h, is_Some (connections w0 !! h) -> (h < next_handle w0)%nat) as Hconn0
    by exact Hconn.
  assert (forall k, is_Some (cursors w0 !! k) -> (k < next_handle w0)%nat) as Hcur0
    by exact Hcur.
  clearbody w0. clear Hconn Hcur.
  destruct r as [|form|]; cbn [handle].
  - index_paths w0; (split; intros j Hj; world_fields;
      rewrite ?lookup_insert_is_Some, ?lookup_delete_is_Some in Hj;
      first [ specialize (Hconn0 j) | idtac ]; first [ specialize (Hcur0 j) | idtac ];
      intuition lia).
  - add_task_paths w0 form; (split; intros j Hj; world_fields;
      rewrite ?lookup_insert_is_Some, ?lookup_delete_is_Some in Hj;
      first [ specialize (Hconn0 j) | idtac ]; first [ specialize (Hcur0 j) | idtac ];
      intuition lia).
  - by split.
Qed.

Lemma next_handles_free w :
  handles_below w ->
  connections w !! next_handle w = None /\ cursors w !! S (next_handle w) = None.
Proof.
  intros [Hconn Hcur]. split.
  - destruct (connections w !! next_handle w) eqn:E; [|done].
    specialize (Hconn (next_handle w)). rewrite E in Hconn.
    assert (next_handle w < next_handle w)%nat by (apply Hconn; by eexists). lia.
  - destruct (cursors w !! S (next_handle w)) eqn:E; [|done].
    specialize (Hcur (S (next_handle w))). rewrite E in Hcur.
    assert (S (next_handle w) < next_handle w)%nat by (apply Hcur; by eexists). lia.
Qed.

Lemma serve_no_leak f r w :
  handles_below w ->
  fails_after_connect (db_config w) f r = false ->
  connections (serve f r w) = connections w /\ cursors (serve f r w) = cursors w.
Proof.
  intros Hwf Hno. destruct (next_handles_free w Hwf) as [Hh Hk].
  unfold serve, fails_after_connect in *. set (w0 := set_faults f w).
  destruct r as [|form|]; cbn [handle].
  - index_paths w0; subst w0; world_fields;
      rewrite ?Hc, ?He, ?Hf in Hno; try done.
    by rewrite !delete_id.
  - add_task_paths w0 form; subst w0; world_fields;
      rewrite ?Hk0, ?Hc, ?He, ?Hm in Hno; try done.
    by rewrite !delete_id.
  - done.
Qed.

Lemma serve_leak f r w :
  fails_after_connect (db_config w) f r = true ->
  exists c cur,
    connections (serve f r w) = <[next_handle w := c]> (connections w) /\
    conn_params c = db_config w /\
    cursors (serve f r w) = <[S (next_handle w) := cur]> (cursors w) /\
    cur_conn cur = next_handle w.
Proof.
  intros Hyes. unfold serve, fails_after_connect in *. set (w0 := set_faults f w).
  destruct r as [|form|]; cbn [handle].
  - index_paths w0; subst w0; world_fields;
      rewrite ?Hc, ?He, ?Hf in Hyes; try done.
    all: by eexists _, _.
  - add_task_paths w0 form; subst w0; world_fields;
      rewrite ?Hk, ?Hc, ?He, ?Hm in Hyes; try done.
    all: try (by eexists _, _).
    by destruct (on_connect f (db_config w)).
  - by destruct (on_connect f (db_config w)).
Qed.

Lemma serve_all_handles_below rs w :
  handles_below w -> handles_below (serve_all rs w).
Proof.
  revert w. induction rs as [|[f r] rs IH]; intros w Hwf; cbn [serve_all]; [done|].
  by apply IH, serve_handles_below.
Qed.

Lemma serve_all_db_config rs w : db_config (serve_all rs w) = db_config w.
Proof.
  revert w. induction rs as [|[f r] rs IH]; intros w; cbn [serve_all]; [done|].
  by rewrite IH, serve_db_config.
Qed.

(** X1. What a run of requests returns, and the table it leaves, depend
    only on the configuration, the behaviour of the database and the
    table: connections and cursors left open by earlier requests are
    never consulted. *)
Theorem responses_ignore_driver_objects
    (rs : list (faults * request)) (w1 w2 : world) :
  same_store w1 w2 ->
  (serve_log rs w1).1 = (serve_log rs w2).1 /\
  same_store (serve_log rs w1).2 (serve_log rs w2).2.
Proof.
  revert w1 w2. induction rs as [|[f r] rs IH]; intros w1 w2 Hsame; cbn [serve_log].
  - by split.
  - assert (same_store (set_faults f w1) (set_faults f w2)) as Hsame'.
    { destruct Hsame as (? & ? & ? & ?). by repeat split. }
    destruct (handle_same_store r _ _ Hsame') as [Ho Hw].
    destruct (handle r (set_faults f w1)) as [o1 u1].
    destruct (handle r (set_faults f w2)) as [o2 u2].
    cbn [fst snd] in Ho, Hw. subst o2.
    destruct (IH u1 u2 Hw) as [Hos Hws].
    destruct (serve_log rs u1) as [os1 v1]. destruct (serve_log rs u2) as [os2 v2].
    cbn [fst snd] in *. by subst os2.
Qed.

Lemma responses_ignore_driver_objects_witness :
  same_store (set_faults query_fails empty_world) (serve query_fails GET_index empty_world) /\
  (serve_log [(healthy, POST_add [("task", "buy milk")]); (healthy, GET_index)]
     (set_faults query_fails empty_world)).1
  = (serve_log [(healthy, POST_add [("task", "buy milk")]); (healthy, GET_index)]
       (serve query_fails GET_index empty_world)).1.
Proof.
  split; [by repeat split|].
  apply (responses_ignore_driver_objects
           [(healthy, POST_add [("task", "buy milk")]); (healthy, GET_index)]
           (set_faults query_fails empty_world)
           (serve query_fails GET_index empty_world)).
  by repeat split.
Defined.

(** X2. GET / is a safe request: whether it renders the page or reports
    an error, it leaves the table and the identifier counter as they
    were, and any request served after it returns what it would have
    returned without it. *)
Theorem index_is_safe (r : request) (w : world) :
  tasks_table (index w).2 = tasks_table w /\
  auto_increment (index w).2 = auto_increment w /\
  (handle r (index w).2).1 = (handle r w).1 /\
  tasks_table (handle r (index w).2).2 = tasks_table (handle r w).2.
Proof.
  assert (same_store (index w).2 w) as Hsame.
  { index_paths w; by repeat split. }
  destruct (handle_same_store r _ _ Hsame) as [Ho (_ & _ & Ht & _)].
  destruct Hsame as (_ & _ & ? & ?). by repeat split.
Qed.

(** X3. POST /add does not look for an existing task of the same name:
    submitting the same form twice stores the name twice, under two
    consecutive identifiers. *)
Theorem double_submission_duplicates
    (w : world) (form : list (string * string)) (s : string) :
  form_lookup "task" form = Some s ->
  tasks_table (serve healthy (POST_add form) (serve healthy (POST_add form) w))
    = tasks_table w ++ [(auto_increment w, s); (auto_increment w + 1, s)].
Proof.
  intros Hk. rewrite !(serve_add_healthy form s) by done.
  cbn [tasks_table auto_increment]. by rewrite <- app_assoc.
Qed.

Lemma double_submission_duplicates_witness :
  form_lookup "task" [("task", "buy milk")] = Some "buy milk" /\
  tasks_table
    (serve healthy (POST_add [("task", "buy milk")])
       (serve healthy (POST_add [("task", "buy milk")]) empty_world))
    = tasks_table empty_world
      ++ [(auto_increment empty_world, "buy milk");
          (auto_increment empty_world + 1, "buy milk")].
Proof.
  split; [reflexivity|].
  apply (double_submission_duplicates empty_world [("task", "buy milk")] "buy milk").
  reflexivity.
Defined.

Lemma handle_acknowledged f r w :
  exists rows : list task_row,
    tasks_table (handle r (set_faults f w)).2 = tasks_table w ++ rows /\
    (forall rs os,
        acknowledged ((f, r) :: rs) ((handle r (set_faults f w)).1 :: os)
          = map snd rows ++ acknowledged rs os) /\
    Forall (fun row : task_row => row.1 = auto_increment w) rows /\
    (auto_increment w <= auto_increment (handle r (set_faults f w)).2) /\
    (rows <> [] -> auto_increment (handle r (set_faults f w)).2 = auto_increment w + 1).
Proof.
  set (w0 := set_faults f w). destruct r as [|form|]; cbn [handle].
  - index_paths w0; exists []; rewrite app_nil_r; subst w0; world_fields;
      (split_and!; [done | done | done | lia | done]).
  - add_task_paths w0 form.
    5: { exists []; rewrite app_nil_r; subst w0; world_fields.
         split_and!; [done | done | done | lia | done]. }
    4: { exists [(auto_increment w, s)]. subst w0; world_fields.
         split_and!; [done | | by repeat constructor | lia | done].
         intros rs os. cbn [acknowledged]. by rewrite Hk. }
    all: exists []; rewrite app_nil_r; subst w0; world_fields;
      (split_and!; [done | done | done | lia | done]).
  - exists []. rewrite app_nil_r. split_and!; [done | done | done | cbn; lia | done].
Qed.

(** X4. The redirect is a faithful acknowledgement.  Over any run of
    requests, under any behaviour of the database, the rows the table
    has gained carry exactly the names of the POST /add requests that
    were answered with a redirect, in the order of the requests; a
    request that raised has stored nothing. *)
Theorem table_gains_acknowledged_names (rs : list (faults * request)) (w : world) :
  exists rows : list task_row,
    tasks_table (serve_log rs w).2 = tasks_table w ++ rows /\
    map snd rows = acknowledged rs (serve_log rs w).1.
Proof.
  revert w. induction rs as [|[f r] rs IH]; intros w; cbn [serve_log].
  - exists []. by rewrite app_nil_r.
  - destruct (handle_acknowledged f r w) as (rows0 & Ht0 & Hack & _).
    destruct (handle r (set_faults f w)) as [o u]. cbn [fst snd] in Ht0, Hack.
    destruct (IH u) as (rows & Ht & Hnames).
    destruct (serve_log rs u) as [os v]. cbn [fst snd] in *.
    exists (rows0 ++ rows). split.
    + by rewrite Ht, Ht0, app_assoc.
    + rewrite Hack, map_app. f_equal. exact Hnames.
Qed.

Lemma empty_world_handles_below : handles_below empty_world.
Proof. split; intros j [x Hx]; cbn in Hx; by rewrite lookup_empty in Hx. Qed.

(** X5. Accounting of driver objects for one request, in a world where
    the handle counter is ahead of every open object.  A request that
    gets its connection and then fails leaves exactly one connection and
    one cursor that the application has opened and not closed, the two
    it created; every other request (success, refused connection,
    missing form field, health check) leaves the open connections and
    cursors exactly as they were. *)
Theorem request_leaks_at_most_its_own (f : faults) (r : request) (w : world) :
  handles_below w ->
  handles_below (serve f r w) /\
  if fails_after_connect (db_config w) f r then
    connections w !! next_handle w = None /\
    cursors w !! S (next_handle w) = None /\
    exists c cur,
      connections (serve f r w) = <[next_handle w := c]> (connections w) /\
      conn_params c = db_config w /\
      cursors (serve f r w) = <[S (next_handle w) := cur]> (cursors w) /\
      cur_conn cur = next_handle w
  else
    connections (serve f r w) = connections w /\
    cursors (serve f r w) = cursors w.
Proof.
  intros Hwf. split; [by apply serve_handles_below|].
  destruct (fails_after_connect (db_config w) f r) eqn:Hfail.
  - destruct (next_handles_free w Hwf) as [Hh Hk]. repeat split; [done..|].
    by apply serve_leak.
  - by apply serve_no_leak.
Qed.

Lemma request_leaks_at_most_its_own_witness :
  handles_below empty_world /\
  exists c cur,
    connections (serve commit_fails (POST_add [("task", "buy milk")]) empty_world)
      = <[next_handle empty_world := c]> (connections empty_world) /\
    conn_params c = db_config empty_world /\
    cursors (serve commit_fails (POST_add [("task", "buy milk")]) empty_world)
      = <[S (next_handle empty_world) := cur]> (cursors empty_world) /\
    cur_conn cur = next_handle empty_world.
Proof.
  pose proof empty_world_handles_below as Hwf.
  split; [exact Hwf|].
  destruct (request_leaks_at_most_its_own commit_fails
              (POST_add [("task", "buy milk")]) empty_world Hwf)
    as (_ & _ & _ & Hleak).
  exact Hleak.
Defined.

(** X6. Leaks add up.  After any run of requests, the number of
    connections, and of cursors, that the application has opened and not
    closed has grown by exactly the number of requests that obtained a
    connection and then failed: no view closes what another left open. *)
Theorem leaks_accumulate (rs : list (faults * request)) (w : world) :
  handles_below w ->
  size (connections (serve_all rs w))
    = (size (connections w) + leak_count (db_config w) rs)%nat /\
  size (cursors (serve_all rs w))
    = (size (cursors w) + leak_count (db_config w) rs)%nat.
Proof.
  revert w. induction rs as [|[f r] rs IH]; intros w Hwf; cbn [serve_all leak_count].
  - split; lia.
  - destruct (IH (serve f r w) (serve_handles_below f r w Hwf)) as [IHc IHk].
    rewrite IHc, IHk, serve_db_config.
    destruct (fails_after_connect (db_config w) f r) eqn:Hfail.
    + destruct (next_handles_free w Hwf) as [Hh Hk].
      destruct (serve_leak f r w Hfail) as (c & cur & -> & _ & -> & _).
      rewrite !map_size_insert_None by done. split; lia.
    + destruct (serve_no_leak f r w Hwf Hfail) as [-> ->]. split; lia.
Qed.

Lemma leaks_accumulate_witness :
  handles_below empty_world /\
  size (connections
          (serve_all
             [(query_fails, GET_index);
              (healthy, POST_add [("task", "buy milk")]);
              (commit_fails, POST_add [("task", "walk the dog")]);
              (unreachable, GET_index)]
             empty_world)) = 2%nat.
Proof.
  pose proof empty_world_handles_below as Hwf.
  split; [exact Hwf|].
  apply (leaks_accumulate
           [(query_fails, GET_index);
            (healthy, POST_add [("task", "buy milk")]);
            (commit_fails, POST_add [("task", "walk the dog")]);
            (unreachable, GET_index)]
           empty_world Hwf).
Defined.



Lemma below_not_in (a : Z) (rows : list task_row) :
  Forall (fun row : task_row => row.1 < a) rows -> a ∉ map fst rows.
Proof.
  induction 1 as [|row rows Hrow _ IH]; cbn [map].
  - apply not_elem_of_nil.
  - apply not_elem_of_cons. split; [lia | exact IH].
Qed.

Lemma serve_ids_fresh f r w : ids_fresh w -> ids_fresh (serve f r w).
Proof.
  intros [Hnd Hlt]. unfold serve, ids_fresh. set (w0 := set_faults f w).
  assert (Forall (fun row : task_row => row.1 < auto_increment w + 1) (tasks_table w))
    as Hlt' by (eapply Forall_impl; [exact Hlt | cbn; intros; lia]).
  destruct r as [|form|]; cbn [handle].
  - index_paths w0; subst w0; world_fields; by split.
  - add_task_paths w0 form; subst w0; world_fields; try (by split).
    split.
    + rewrite map_app. apply NoDup_app. split_and!; [done | | ].
      * intros x Hx Hx'. cbn in Hx'. apply list_elem_of_singleton in Hx' as ->.
        by apply (below_not_in _ _ Hlt).
      * cbn. apply NoDup_singleton.
    + apply Forall_app. split; [done|]. repeat constructor. cbn. lia.
  - by split.
Qed.

(** X8. Identifiers stay unique.  The insert names only the task, so the
    store assigns the identifier; when the identifiers of the table are
    distinct and below the store's counter, they still are after any
    run of requests, whichever of them fail. *)
Theorem identifiers_stay_unique (rs : list (faults * request)) (w : world) :
  ids_fresh w -> ids_fresh (serve_all rs w).
Proof.
  revert w. induction rs as [|[f r] rs IH]; intros w Hw; cbn [serve_all]; [done|].
  by apply IH, serve_ids_fresh.
Qed.

Lemma identifiers_stay_unique_witness :
  ids_fresh empty_world /\
  ids_fresh
    (serve_all
       [(healthy, POST_add [("task", "buy milk")]);
        (commit_fails, POST_add [("task", "buy milk")]);
        (healthy, POST_add [("task", "buy milk")])]
       empty_world).
Proof.
  assert (ids_fresh empty_world) as Hw.
  { split; [apply NoDup_nil_2 | apply Forall_nil_2]. }
  split; [exact Hw|].
  apply (identifiers_stay_unique
           [(healthy, POST_add [("task", "buy milk")]);
            (commit_fails, POST_add [("task", "buy milk")]);
            (healthy, POST_add [("task", "buy milk")])]
           empty_world Hw).
Defined.

(** X9. The status codes a client can see.  GET / and GET /health are
    answered 200 under every behaviour of the database, so a failed read
    cannot be told from a page by its status; POST /add is answered 400
    when the task field is missing, 302 when connection, insert and
    commit succeed, and 500 when one of them fails. *)
Theorem status_codes (f : faults) (r : request) (w : world) :
  driver_errors_only f ->
  http_status (handle r (set_faults f w)).1 =
    match r with
    | GET_index => 200
    | GET_health => 200
    | POST_add form =>
        match form_lookup "task" form with
        | None => 400
        | Some _ =>
            match write_path_failure (set_faults f w) with
            | None => 302
            | Some _ => 500
            end
        end
    end.
Proof.
  intros [Hexec Hcommit]. set (w0 := set_faults f w).
  destruct r as [|form|]; cbn [handle].
  - index_paths w0; reflexivity.
  - unfold write_path_failure. add_task_paths w0 form; try reflexivity.
    + destruct (Hexec e He) as (cls & text0 & ->). reflexivity.
    + destruct (Hcommit e Hm) as (cls & text0 & ->). reflexivity.
  - reflexivity.
Qed.

Lemma status_codes_witness :
  driver_errors_only commit_fails /\
  http_status
    (handle (POST_add [("task", "buy milk")]) (set_faults commit_fails empty_world)).1
    = 500.
Proof.
  assert (driver_errors_only commit_fails) as Hd.
  { split; intros e He; [discriminate He|].
    injection He as <-. by eexists _, _. }
  split; [exact Hd|].
  apply (status_codes commit_fails (POST_add [("task", "buy milk")]) empty_world Hd).
Defined.
